(** * Ilocano Food Match: the matcher and its two endpoints

    A shallow embedding of [backend/models/dish.py],
    [backend/services/matcher.py] and the request handlers of
    [backend/main.py], followed by the properties of the specification.

    Text.  A Python [str] is modelled as a Rocq [string] whose characters
    are the code points U+0000..U+00FF; [str.lower], [str.strip] and the
    regular-expression class [\s] are the restrictions of Python's to that
    range.  Integers ([id], [score], [top_n]) are unbounded, as in Python,
    hence [Z]. *)

From Stdlib Require Import ZArith NArith Bool List Ascii String Lia Permutation.
Import ListNotations.

Local Open Scope Z_scope.
Local Open Scope string_scope.

(** ** Characters and the string primitives the matcher calls *)

Module Text.

Definition code (c : ascii) : N := N_of_ascii c.

Definition between (lo hi : N) (c : ascii) : bool :=
  (N.leb lo (code c) && N.leb (code c) hi)%bool.

(** The complement of the class [[^a-z0-9]]. *)
Definition is_alnum (c : ascii) : bool :=
  (between 97 122 c || between 48 57 c)%bool.

(** [Py_UNICODE_ISSPACE] below U+0100: TAB..CR, FS..US, SPACE, NEL, NBSP.
    Both [str.strip()] and [\s] use it. *)
Definition is_space (c : ascii) : bool :=
  (between 9 13 c || between 28 32 c
   || N.eqb (code c) 133 || N.eqb (code c) 160)%bool.

(** [str.lower] on one character: A-Z, and the Latin-1 capitals
    U+00C0..U+00DE without the multiplication sign U+00D7. *)
Definition lower_char (c : ascii) : ascii :=
  if (between 65 90 c
      || (between 192 222 c && negb (N.eqb (code c) 215)))%bool
  then ascii_of_N (code c + 32)
  else c.

Fixpoint lower (s : string) : string :=
  match s with
  | EmptyString => EmptyString
  | String c t => String (lower_char c) (lower t)
  end.

(** [s.replace(old, new)] for one-character [old] and [new]. *)
Fixpoint replace_char (old new : ascii) (s : string) : string :=
  match s with
  | EmptyString => EmptyString
  | String c t =>
      String (if Ascii.eqb c old then new else c) (replace_char old new t)
  end.

Fixpoint lstrip (s : string) : string :=
  match s with
  | EmptyString => EmptyString
  | String c t => if is_space c then lstrip t else s
  end.

Fixpoint rstrip (s : string) : string :=
  match s with
  | EmptyString => EmptyString
  | String c t =>
      match rstrip t with
      | EmptyString => if is_space c then EmptyString else String c EmptyString
      | r => String c r
      end
  end.

(** [s.strip()] *)
Definition strip (s : string) : string := rstrip (lstrip s).

(** [re.sub(r"[^a-z0-9]+", " ", s)]: every maximal run of characters
    outside a-z0-9 becomes one space.  [in_run] records that the
    previous character already belongs to the run being replaced. *)
Fixpoint sub_non_alnum (in_run : bool) (s : string) : string :=
  match s with
  | EmptyString => EmptyString
  | String c t =>
      if is_alnum c then String c (sub_non_alnum false t)
      else if in_run then sub_non_alnum true t
      else String " " (sub_non_alnum true t)
  end.

(** [re.sub(r"^no\s+", "", s)]: an initial "no" followed by at least one
    white-space character is removed together with the whole white-space
    run; any other string is returned as it is. *)
Definition sub_leading_no (s : string) : string :=
  match s with
  | String "n" (String "o" (String c t)) =>
      if is_space c then lstrip t else s
  | _ => s
  end.

(** Truth value of a [str]: non-empty. *)
Definition truthy (s : string) : bool :=
  match s with EmptyString => false | _ => true end.

(** [x in l] for a list of strings. *)
Definition str_in (x : string) (l : list string) : bool :=
  existsb (String.eqb x) l.

(** [x or ""] for an [Optional[str]]. *)
Definition or_empty (o : option string) : string :=
  match o with Some s => if truthy s then s else "" | None => "" end.

(** How an f-string renders an [Optional[str]]. *)
Definition fmt_opt (o : option string) : string :=
  match o with Some s => s | None => "None" end.

(** [sorted(xs)] on strings: ascending by code point. *)
Fixpoint insert_asc (x : string) (l : list string) : list string :=
  match l with
  | [] => [x]
  | y :: l' => if String.ltb y x then y :: insert_asc x l' else x :: l
  end.

Definition sorted_asc (l : list string) : list string :=
  fold_right insert_asc [] l.

End Text.

(** ** models/dish.py *)

Module Dish.
Record t := mk {
  id : Z;
  name : string;
  description : option string;
  ingredients : list string;
  taste : string;
  cooking_method : string;
  dietary_tags : list string;
  image : option string;
  occasions : list string
}.
End Dish.

Module PreferenceIn.
Record t := mk {
  preferred_taste : option string;
  ingredients_preference : list string;
  dietary_restrictions : list string;
  cooking_method : option string;
  occasion : option string
}.
End PreferenceIn.

Module RecommendationOut.
Record t := mk {
  id : Z;
  name : string;
  image : option string;
  reason : string;
  score : Z
}.
End RecommendationOut.

(** ** services/matcher.py *)

Definition normalize_token (s : string) : string :=
  Text.strip (Text.sub_non_alnum false (Text.lower s)).

Definition parse_restriction_token (restr : string) : string :=
  let s := Text.lower restr in
  let s := Text.replace_char "-" " " (Text.replace_char "_" " " s) in
  let s := Text.strip s in
  let s := Text.sub_leading_no s in
  let s := Text.strip s in
  normalize_token s.

(** The pair [(score, reasons)] that the loop body of [match_dishes]
    updates rule after rule. *)
Record tally := Tally { t_score : Z; t_reasons : list string }.

(** [score += delta; reasons.append(fragment)] *)
Definition award (delta : Z) (fragment : string) (a : tally) : tally :=
  Tally (t_score a + delta) (t_reasons a ++ [fragment])%list.

Definition FALLBACK_REASON : string :=
  "No strong positive matches; showing as lower-scoring suggestion".

Section Rules.

Variable prefs : PreferenceIn.t.
Variable dish : Dish.t.

(** Normalised preferences. *)
Definition pref_taste : string :=
  normalize_token (Text.or_empty (PreferenceIn.preferred_taste prefs)).
Definition pref_ingredients : list string :=
  map normalize_token (PreferenceIn.ingredients_preference prefs).
Definition pref_cooking : string :=
  normalize_token (Text.or_empty (PreferenceIn.cooking_method prefs)).
Definition pref_occasion : string :=
  normalize_token (Text.or_empty (PreferenceIn.occasion prefs)).
Definition restriction_tokens : list string :=
  map parse_restriction_token
      (filter Text.truthy (PreferenceIn.dietary_restrictions prefs)).

(** Normalised dish fields. *)
Definition dish_taste : string := normalize_token (Dish.taste dish).
Definition dish_ingredients : list string :=
  map normalize_token (Dish.ingredients dish).
Definition dish_cooking : string := normalize_token (Dish.cooking_method dish).
Definition dish_tags : list string :=
  map normalize_token (Dish.dietary_tags dish).
Definition dish_occasions : list string :=
  map normalize_token (Dish.occasions dish).

Definition taste_rule (a : tally) : tally :=
  if Text.truthy pref_taste then
    if String.eqb pref_taste dish_taste
    then award 3 ("Matches taste: " ++ Dish.taste dish ++ " (+3)") a
    else a
  else a.

(** [set(pref_ingredients).intersection(set(dish_ingredients))], kept as
    a list without repetition. *)
Definition ingredient_matches : list string :=
  nodup string_dec
    (filter (fun p => Text.str_in p dish_ingredients) pref_ingredients).

Definition ingredient_rule (a : tally) : tally :=
  match ingredient_matches with
  | [] => a
  | _ :: _ =>
      let matches_str := String.concat ", " (Text.sorted_asc ingredient_matches) in
      award 3 ("Contains preferred ingredient(s): " ++ matches_str ++ " (+3)") a
  end.

(** The body of [for rt in restriction_tokens]. *)
Definition restriction_step (a : tally) (rt : string) : tally :=
  if negb (Text.truthy rt) then a
  else if (Text.str_in rt dish_ingredients || Text.str_in rt dish_tags)%bool
  then award (-5) ("Contains restricted item: " ++ rt ++ " (-5)") a
  else a.

Definition restriction_rule (a : tally) : tally :=
  fold_left restriction_step restriction_tokens a.

Definition cooking_rule (a : tally) : tally :=
  if Text.truthy pref_cooking then
    if String.eqb pref_cooking dish_cooking
    then award 2 ("Cooking method matches: " ++ Dish.cooking_method dish ++ " (+2)") a
    else a
  else a.

Definition occasion_rule (a : tally) : tally :=
  if Text.truthy pref_occasion then
    if Text.str_in pref_occasion dish_occasions
    then award 1 ("Suitable for: " ++ Text.fmt_opt (PreferenceIn.occasion prefs) ++ " (+1)") a
    else a
  else a.

Definition fallback (a : tally) : tally :=
  match t_reasons a with
  | [] => Tally (t_score a) [FALLBACK_REASON]
  | _ :: _ => a
  end.

(** The five rules in the order of the loop body, from [score = 0] and
    [reasons = []]. *)
Definition run_rules : tally :=
  occasion_rule
    (cooking_rule
       (restriction_rule
          (ingredient_rule
             (taste_rule (Tally 0 []))))).

(** One iteration of [for dish in dishes]. *)
Definition score_dish : RecommendationOut.t :=
  let a := fallback run_rules in
  RecommendationOut.mk
    (Dish.id dish) (Dish.name dish) (Dish.image dish)
    (String.concat "; " (t_reasons a))
    (t_score a).

End Rules.

(** The sort key [(r.score, r.name)] and Python's [<] on such pairs. *)
Definition key_lt (r1 r2 : RecommendationOut.t) : bool :=
  (Z.ltb (RecommendationOut.score r1) (RecommendationOut.score r2)
   || (Z.eqb (RecommendationOut.score r1) (RecommendationOut.score r2)
       && String.ltb (RecommendationOut.name r1) (RecommendationOut.name r2)))%bool.

(** [list.sort(key=..., reverse=True)] is stable: among records with equal
    keys the earlier one stays first.  [insert_desc x l] places [x], which
    precedes every element of [l] in the input, in front of the first
    element whose key is not greater. *)
Fixpoint insert_desc (x : RecommendationOut.t) (l : list RecommendationOut.t)
  : list RecommendationOut.t :=
  match l with
  | [] => [x]
  | y :: l' => if key_lt x y then y :: insert_desc x l' else x :: l
  end.

Definition sort_desc (l : list RecommendationOut.t) : list RecommendationOut.t :=
  fold_right insert_desc [] l.

(** [l[:n]] with Python's reading of a negative bound. *)
Definition slice_to {A : Type} (l : list A) (n : Z) : list A :=
  if Z.leb 0 n then firstn (Z.to_nat n) l
  else firstn (Z.to_nat (Z.of_nat (List.length l) + n)) l.

Definition DEFAULT_TOP_N : Z := 3.

Definition match_dishes (dishes : list Dish.t) (prefs : PreferenceIn.t) (top_n : Z)
  : list RecommendationOut.t :=
  let results := map (score_dish prefs) dishes in
  let results := sort_desc results in
  slice_to results top_n.

(** ** main.py *)

(** What a handler gives back: its value, or the [HTTPException] it raised. *)
Inductive response (A : Type) : Type :=
| Returned : A -> response A
| HTTPException : Z -> string -> response A.
Arguments Returned {A} _.
Arguments HTTPException {A} _ _.

(** [GET /dish/{dish_id}] over the catalog held in [app.state.dishes]. *)
Fixpoint get_dish (state_dishes : list Dish.t) (dish_id : Z) : response Dish.t :=
  match state_dishes with
  | [] => HTTPException 404 "Dish not found"
  | d :: rest => if Z.eqb (Dish.id d) dish_id then Returned d else get_dish rest dish_id
  end.

(** One entry of the ["recommendations"] list of the [/match] response. *)
Record rec_entry := RecEntry {
  e_name : string;
  e_image : option string;
  e_reason : string;
  e_score : Z
}.

Definition to_entry (r : RecommendationOut.t) : rec_entry :=
  RecEntry (RecommendationOut.name r) (RecommendationOut.image r)
           (RecommendationOut.reason r) (RecommendationOut.score r).

(** [POST /match] *)
Definition match_endpoint (state_dishes : list Dish.t) (preference : PreferenceIn.t)
  : response (list rec_entry) :=
  match state_dishes with
  | [] => HTTPException 500 "Dish dataset not loaded"
  | _ :: _ =>
      let recommendations := match_dishes state_dishes preference DEFAULT_TOP_N in
      Returned (map to_entry recommendations)
  end.

(** ** Vocabulary of the properties *)

(** A token in normal form, read left to right: only a-z, 0-9 and single
    spaces; [after_space] says that the previous character was a space (or
    that the string starts here), so another space is not allowed. *)
Fixpoint tidy (after_space : bool) (s : string) : bool :=
  match s with
  | EmptyString => true
  | String c t =>
      if Text.is_alnum c then tidy false t
      else (Ascii.eqb c " " && negb after_space && tidy true t)%bool
  end.

(** [frag] occurs in [s] as a substring. *)
Definition occurs_in (frag s : string) : Prop :=
  exists before after, s = before ++ frag ++ after.

(** Every two neighbours of [l] are related by [R]. *)
Fixpoint neighbours {A : Type} (R : A -> A -> Prop) (l : list A) : Prop :=
  match l with
  | x :: (y :: _) as t => R x y /\ neighbours R t
  | _ => True
  end.

(** The relation between an element and whatever comes first in a list. *)
Definition before_head {A : Type} (R : A -> A -> Prop) (x : A) (l : list A) : Prop :=
  match l with [] => True | y :: _ => R x y end.

(** [r1] may stand directly before [r2] in a ranking: a strictly greater
    score, or the same score and a name that is not smaller. *)
Definition outranks (r1 r2 : RecommendationOut.t) : Prop :=
  RecommendationOut.score r2 < RecommendationOut.score r1
  \/ (RecommendationOut.score r1 = RecommendationOut.score r2
      /\ String.leb (RecommendationOut.name r2) (RecommendationOut.name r1) = true).

Definition name_not_smaller (r1 r2 : RecommendationOut.t) : Prop :=
  String.leb (RecommendationOut.name r2) (RecommendationOut.name r1) = true.

(** Two records with the same sort key. *)
Definition same_key (r1 r2 : RecommendationOut.t) : bool :=
  (Z.eqb (RecommendationOut.score r1) (RecommendationOut.score r2)
   && String.eqb (RecommendationOut.name r1) (RecommendationOut.name r2))%bool.

(** An optional text field that is absent or empty. *)
Definition blank (o : option string) : Prop := o = None \/ o = Some "".

(** A request all of whose fields are empty or absent. *)
Definition all_blank (prefs : PreferenceIn.t) : Prop :=
  blank (PreferenceIn.preferred_taste prefs)
  /\ PreferenceIn.ingredients_preference prefs = []
  /\ PreferenceIn.dietary_restrictions prefs = []
  /\ blank (PreferenceIn.cooking_method prefs)
  /\ blank (PreferenceIn.occasion prefs).

(** The restriction tokens that hit a dish: non-empty and among its
    normalised ingredients or dietary tags.  Order and repetitions are
    those of the request. *)
Definition restriction_hits (prefs : PreferenceIn.t) (dish : Dish.t) : list string :=
  filter (fun rt => Text.truthy rt
                    && (Text.str_in rt (dish_ingredients dish)
                        || Text.str_in rt (dish_tags dish)))%bool
         (restriction_tokens prefs).

Definition restricted_fragment (rt : string) : string :=
  "Contains restricted item: " ++ rt ++ " (-5)".

(** The fallback reason as the specification spells it. *)
Definition SPEC_FALLBACK_REASON : string :=
  "No strong positive matches; showing as lower-scoring suggestion.".

(** The conditions under which the taste, cooking-method and occasion
    rules fire. *)
Definition taste_fires (prefs : PreferenceIn.t) (dish : Dish.t) : Prop :=
  Text.truthy (pref_taste prefs) = true /\ pref_taste prefs = dish_taste dish.

Definition cooking_fires (prefs : PreferenceIn.t) (dish : Dish.t) : Prop :=
  Text.truthy (pref_cooking prefs) = true /\ pref_cooking prefs = dish_cooking dish.

Definition occasion_fires (prefs : PreferenceIn.t) (dish : Dish.t) : Prop :=
  Text.truthy (pref_occasion prefs) = true
  /\ In (pref_occasion prefs) (dish_occasions dish).

(** Concrete data of the scenarios. *)
Definition pinakbet : Dish.t :=
  Dish.mk 1 "Pinakbet" (Some "") ["vegetables"; "pork"] "bitter" "boiled"
          ["pork"] None ["everyday"].

Definition no_preference : PreferenceIn.t :=
  PreferenceIn.mk None [] [] None None.

Definition bitter_no_pork : PreferenceIn.t :=
  PreferenceIn.mk (Some "bitter") [] ["no-pork"] None None.

Definition dinengdeng : Dish.t :=
  Dish.mk 2 "Dinengdeng" (Some "") ["vegetables"; "bagoong"; ""] "salty" "boiled"
          ["seafood"] None ["everyday"].

(** A request whose ingredient list holds one blank entry. *)
Definition blank_ingredient : PreferenceIn.t :=
  PreferenceIn.mk None [""] [] None None.

(** A request whose occasion is spelled unlike the catalog's entry. *)
Definition loud_occasion : PreferenceIn.t :=
  PreferenceIn.mk None [] [] None (Some "EVERYDAY!").

(** A token in normal form: tidy from its first character on, and
    without white space at its end. *)
Definition normal (t : string) : Prop :=
  tidy true t = true /\ Text.rstrip t = t.

(** The request with its dietary restrictions taken out. *)
Definition without_restrictions (prefs : PreferenceIn.t) : PreferenceIn.t :=
  PreferenceIn.mk (PreferenceIn.preferred_taste prefs)
                  (PreferenceIn.ingredients_preference prefs)
                  []
                  (PreferenceIn.cooking_method prefs)
                  (PreferenceIn.occasion prefs).

(** A reason fragment written by one of the five rules starts with a
    character other than the "N" of the fallback reason. *)
Definition rule_fragment (f : string) : Prop :=
  match f with
  | EmptyString => False
  | String c _ => c <> "N"%char
  end.

(** What a tally keeps true while the rules run: every fragment was
    written by a rule, and a tally without fragments still has score 0. *)
Definition untouched_or_explained (a : tally) : Prop :=
  Forall rule_fragment (t_reasons a) /\ (t_reasons a = [] -> t_score a = 0).

(** Strictly ascending by code point. *)
Definition ascending (l : list string) : Prop :=
  neighbours (fun a b => String.ltb a b = true) l.

(** The score of the first record is at least that of the second. *)
Definition score_ge (r1 r2 : RecommendationOut.t) : Prop :=
  RecommendationOut.score r2 <= RecommendationOut.score r1.

(** ** The normaliser *)

Section Normaliser.

Import Text.

Ltac by_cases c :=
  destruct c as [[] [] [] [] [] [] [] []]; try reflexivity; try discriminate.

Lemma alnum_lower c : is_alnum c = true -> lower_char c = c.
Proof. by_cases c. Qed.

Lemma alnum_not_space c : is_alnum c = true -> is_space c = false.
Proof. by_cases c. Qed.

Lemma space_char c : Ascii.eqb c " " = true -> c = " "%char.
Proof. apply Ascii.eqb_eq. Qed.

(** The regular-expression step always produces a tidy string. *)
Lemma sub_non_alnum_tidy s : forall b, tidy b (sub_non_alnum b s) = true.
Proof.
  induction s as [|c t IH]; intro b; simpl; [reflexivity|].
  destruct (is_alnum c) eqn:Hc.
  - simpl. rewrite Hc. apply IH.
  - destruct b; [apply IH|]. simpl. apply IH.
Qed.

Lemma tidy_weaken s : tidy true s = true -> tidy false s = true.
Proof.
  destruct s as [|c t]; simpl; [reflexivity|].
  destruct (is_alnum c); [tauto|].
  rewrite andb_false_r. discriminate.
Qed.

Lemma tidy_any b s : tidy b s = true -> tidy false s = true.
Proof. destruct b; [apply tidy_weaken | tauto]. Qed.

(** On tidy strings each of the three steps is the identity. *)
Lemma tidy_lower s : forall b, tidy b s = true -> lower s = s.
Proof.
  induction s as [|c t IH]; intros b H; simpl in *; [reflexivity|].
  destruct (is_alnum c) eqn:Hc.
  - rewrite (alnum_lower c Hc), (IH _ H). reflexivity.
  - apply andb_prop in H as [H Ht]. apply andb_prop in H as [H _].
    apply space_char in H. subst c. rewrite (IH _ Ht). reflexivity.
Qed.

Lemma tidy_sub_non_alnum s : forall b, tidy b s = true -> sub_non_alnum b s = s.
Proof.
  induction s as [|c t IH]; intros b H; simpl in *; [reflexivity|].
  destruct (is_alnum c) eqn:Hc.
  - rewrite (IH _ H). reflexivity.
  - apply andb_prop in H as [H Ht]. apply andb_prop in H as [H Hb].
    apply space_char in H. subst c.
    destruct b; [discriminate|]. rewrite (IH _ Ht). reflexivity.
Qed.

Lemma tidy_lstrip_fixed s : tidy true s = true -> lstrip s = s.
Proof.
  destruct s as [|c t]; simpl; [reflexivity|].
  destruct (is_alnum c) eqn:Hc.
  - rewrite (alnum_not_space c Hc). reflexivity.
  - rewrite andb_false_r. discriminate.
Qed.

Lemma lstrip_tidy s : forall b, tidy b s = true -> tidy true (lstrip s) = true.
Proof.
  destruct s as [|c t]; intros b H; simpl in *; [reflexivity|].
  destruct (is_alnum c) eqn:Hc.
  - rewrite (alnum_not_space c Hc). simpl. rewrite Hc. exact H.
  - apply andb_prop in H as [H Ht]. apply andb_prop in H as [H _].
    apply space_char in H. subst c. simpl.
    rewrite (tidy_lstrip_fixed t Ht). exact Ht.
Qed.

Lemma rstrip_tidy s : forall b, tidy b s = true -> tidy b (rstrip s) = true.
Proof.
  induction s as [|c t IH]; intros b H; simpl in *; [reflexivity|].
  destruct (is_alnum c) eqn:Hc.
  - specialize (IH _ H). destruct (rstrip t) as [|c' r].
    + rewrite (alnum_not_space c Hc). simpl. rewrite Hc. reflexivity.
    + simpl tidy at 1. rewrite Hc. exact IH.
  - apply andb_prop in H as [H Ht]. apply andb_prop in H as [H Hb].
    apply space_char in H. subst c.
    specialize (IH _ Ht). destruct (rstrip t) as [|c' r].
    + reflexivity.
    + simpl tidy at 1. rewrite Hb. simpl. exact IH.
Qed.

Lemma rstrip_cons c t :
  rstrip (String c t) =
  match rstrip t with
  | EmptyString => if is_space c then EmptyString else String c EmptyString
  | r => String c r
  end.
Proof. reflexivity. Qed.

Lemma rstrip_idem s : rstrip (rstrip s) = rstrip s.
Proof.
  induction s as [|c t IH]; [reflexivity|].
  rewrite rstrip_cons.
  destruct (rstrip t) as [|c' r] eqn:Hr.
  - destruct (is_space c) eqn:Hc; [reflexivity|].
    rewrite rstrip_cons. simpl. rewrite Hc. reflexivity.
  - rewrite rstrip_cons, IH. reflexivity.
Qed.

Lemma normalize_token_tidy s : tidy true (normalize_token s) = true.
Proof.
  unfold normalize_token, strip.
  apply rstrip_tidy. apply (lstrip_tidy _ false). apply sub_non_alnum_tidy.
Qed.

End Normaliser.

(** C5.  Normalising twice is the same as normalising once, for every
    string; and the three spellings "No-Pork", "no_pork" and "no pork" of
    a restriction all parse to the token "pork". *)
Theorem normalize_token_idempotent :
  (forall s, normalize_token (normalize_token s) = normalize_token s)
  /\ parse_restriction_token "No-Pork" = "pork"
  /\ parse_restriction_token "no_pork" = "pork"
  /\ parse_restriction_token "no pork" = "pork".
Proof.
  split; [|repeat split; reflexivity].
  intro s.
  pose proof (normalize_token_tidy s) as Ht.
  assert (Hr : Text.rstrip (normalize_token s) = normalize_token s)
    by (unfold normalize_token, Text.strip; apply rstrip_idem).
  set (t := normalize_token s) in *.
  unfold normalize_token at 1. unfold Text.strip.
  rewrite (tidy_lower t true Ht).
  rewrite (tidy_sub_non_alnum t false (tidy_weaken t Ht)).
  rewrite (tidy_lstrip_fixed t Ht).
  exact Hr.
Qed.

(** ** Ranking *)

Section Ranking.

Lemma key_lt_outranks x y : key_lt x y = true -> outranks y x.
Proof.
  unfold key_lt, outranks. intro H.
  apply orb_prop in H as [H | H].
  - left. apply Z.ltb_lt. exact H.
  - apply andb_prop in H as [He Hn]. right. split.
    + symmetry. apply Z.eqb_eq. exact He.
    + unfold String.ltb in Hn. unfold String.leb.
      destruct (String.compare (RecommendationOut.name x) (RecommendationOut.name y));
        [discriminate | reflexivity | discriminate].
Qed.

Lemma key_not_lt_outranks x y : key_lt x y = false -> outranks x y.
Proof.
  unfold key_lt, outranks. intro H.
  apply orb_false_elim in H as [Hs H].
  apply Z.ltb_ge in Hs.
  destruct (Z.eqb (RecommendationOut.score x) (RecommendationOut.score y)) eqn:He.
  - right. split; [apply Z.eqb_eq; exact He|].
    simpl in H. unfold String.ltb in H. unfold String.leb.
    rewrite String.compare_antisym.
    destruct (String.compare (RecommendationOut.name x) (RecommendationOut.name y));
      [reflexivity | discriminate | reflexivity].
  - left. apply Z.eqb_neq in He. lia.
Qed.

Lemma neighbours_cons {A} (R : A -> A -> Prop) x l :
  neighbours R (x :: l) <-> before_head R x l /\ neighbours R l.
Proof. destruct l; simpl; tauto. Qed.

Lemma insert_desc_head a x l :
  outranks a x -> before_head outranks a l -> before_head outranks a (insert_desc x l).
Proof.
  intros Hx Hl. destruct l as [|y l]; simpl; [exact Hx|].
  destruct (key_lt x y); simpl; assumption.
Qed.

Lemma insert_desc_ranked x l :
  neighbours outranks l -> neighbours outranks (insert_desc x l).
Proof.
  induction l as [|y l IH]; intro H; [exact I|].
  apply neighbours_cons in H as [Hy Hl].
  cbn [insert_desc]. destruct (key_lt x y) eqn:Hk.
  - apply neighbours_cons. split.
    + apply insert_desc_head; [apply key_lt_outranks; exact Hk | exact Hy].
    + apply IH. exact Hl.
  - apply neighbours_cons. split.
    + apply key_not_lt_outranks. exact Hk.
    + apply neighbours_cons. split; assumption.
Qed.

Lemma sort_desc_ranked l : neighbours outranks (sort_desc l).
Proof.
  induction l as [|x l IH]; [exact I|].
  apply insert_desc_ranked. exact IH.
Qed.

Lemma neighbours_firstn {A} (R : A -> A -> Prop) n :
  forall l, neighbours R l -> neighbours R (firstn n l).
Proof.
  induction n as [|n IH]; intros l H; [exact I|].
  destruct l as [|x l]; [exact I|].
  apply neighbours_cons in H as [Hx Hl].
  cbn [firstn]. apply neighbours_cons. split; [|apply IH; exact Hl].
  destruct l as [|y l]; [destruct n; exact I|].
  destruct n; [exact I | exact Hx].
Qed.

Lemma neighbours_slice_to {A} (R : A -> A -> Prop) (l : list A) n :
  neighbours R l -> neighbours R (slice_to l n).
Proof. unfold slice_to. destruct (Z.leb 0 n); apply neighbours_firstn. Qed.

Lemma insert_desc_perm x l : Permutation (insert_desc x l) (x :: l).
Proof.
  induction l as [|y l IH]; simpl; [reflexivity|].
  destruct (key_lt x y); [|reflexivity].
  rewrite IH. apply perm_swap.
Qed.

Lemma sort_desc_perm l : Permutation (sort_desc l) l.
Proof.
  induction l as [|x l IH]; simpl; [constructor|].
  rewrite insert_desc_perm. constructor. exact IH.
Qed.

Lemma sort_desc_length l : List.length (sort_desc l) = List.length l.
Proof. apply Permutation_length, sort_desc_perm. Qed.

Lemma same_key_not_lt x y k :
  same_key x k = true -> same_key y k = true -> key_lt x y = false.
Proof.
  unfold same_key, key_lt. intros Hx Hy.
  apply andb_prop in Hx as [Sx Nx]. apply andb_prop in Hy as [Sy Ny].
  apply Z.eqb_eq in Sx, Sy. apply String.eqb_eq in Nx, Ny.
  rewrite Sx, Sy, Nx, Ny, Z.ltb_irrefl, Z.eqb_refl. cbn.
  unfold String.ltb.
  destruct (String.compare (RecommendationOut.name k) (RecommendationOut.name k)) eqn:E;
    try reflexivity.
  pose proof (String.compare_antisym (RecommendationOut.name k) (RecommendationOut.name k)) as H.
  rewrite E in H. discriminate.
Qed.

(** The sort is stable: records sharing a key keep the order in which
    the catalog produced them. *)
Lemma insert_desc_stable k x l :
  filter (fun r => same_key r k) (insert_desc x l)
  = filter (fun r => same_key r k) (x :: l).
Proof.
  induction l as [|y l IH]; [reflexivity|].
  cbn [insert_desc]. destruct (key_lt x y) eqn:Hk; [|reflexivity].
  cbn [filter] in *. rewrite IH.
  destruct (same_key x k) eqn:Hx; [|reflexivity].
  destruct (same_key y k) eqn:Hy; [|reflexivity].
  rewrite (same_key_not_lt x y k Hx Hy) in Hk. discriminate.
Qed.

Lemma sort_desc_stable k l :
  filter (fun r => same_key r k) (sort_desc l) = filter (fun r => same_key r k) l.
Proof.
  induction l as [|x l IH]; [reflexivity|].
  cbn [sort_desc fold_right]. fold (sort_desc l).
  rewrite insert_desc_stable. cbn [filter]. rewrite IH. reflexivity.
Qed.

Lemma match_dishes_ranked dishes prefs top_n :
  neighbours outranks (match_dishes dishes prefs top_n).
Proof. unfold match_dishes. apply neighbours_slice_to, sort_desc_ranked. Qed.

Lemma slice_to_all {A} (l : list A) n :
  Z.of_nat (List.length l) <= n -> slice_to l n = l.
Proof.
  intro H. unfold slice_to.
  destruct (Z.leb_spec 0 n); [|lia].
  apply firstn_all2. lia.
Qed.

End Ranking.

Lemma top_n_length_facts dishes prefs top_n :
  0 < top_n ->
  Z.of_nat (List.length (match_dishes dishes prefs top_n))
  = Z.min top_n (Z.of_nat (List.length dishes))
  /\ (Z.of_nat (List.length dishes) < top_n ->
      match_dishes dishes prefs top_n = sort_desc (map (score_dish prefs) dishes)).
Proof.
  intro Hpos. split.
  - unfold match_dishes, slice_to.
    destruct (Z.leb_spec 0 top_n); [|lia].
    rewrite length_firstn, sort_desc_length, length_map. lia.
  - intro Hfew. unfold match_dishes. apply slice_to_all.
    rewrite sort_desc_length, length_map. lia.
Qed.

(** C3.  For a positive [top_n] the result of [match_dishes] is ordered by
    score descending, ties by name descending: of two neighbours the first
    has the strictly greater score, or the same score and a name that is
    greater or equal. *)
Theorem match_dishes_sorted dishes prefs top_n :
  0 < top_n ->
  neighbours outranks (match_dishes dishes prefs top_n).
Proof. intros _. apply match_dishes_ranked. Qed.

(** C4.  For a positive [top_n] the result has [min(top_n, len(dishes))]
    entries; a catalog with fewer than [top_n] dishes is returned whole:
    the result is a rearrangement of all scored dishes, and it is ranked. *)
Theorem match_dishes_length dishes prefs top_n :
  0 < top_n ->
  Z.of_nat (List.length (match_dishes dishes prefs top_n))
  = Z.min top_n (Z.of_nat (List.length dishes))
  /\ (Z.of_nat (List.length dishes) < top_n ->
      Permutation (match_dishes dishes prefs top_n) (map (score_dish prefs) dishes)
      /\ neighbours outranks (match_dishes dishes prefs top_n)).
Proof.
  intro Hpos.
  destruct (top_n_length_facts dishes prefs top_n Hpos) as [Hlen Hall].
  split; [exact Hlen|].
  intro Hfew. split; [|apply match_dishes_ranked].
  rewrite (Hall Hfew). apply sort_desc_perm.
Qed.

(** ** Scoring one dish *)

Section Scoring.

Lemma str_in_In x l : Text.str_in x l = true <-> In x l.
Proof.
  unfold Text.str_in. rewrite existsb_exists. split.
  - intros [y [Hy He]]. apply String.eqb_eq in He. subst y. exact Hy.
  - intro H. exists x. split; [exact H | apply String.eqb_refl].
Qed.

Lemma truthy_nonempty s : Text.truthy s = true <-> s <> "".
Proof. destruct s; simpl; split; congruence. Qed.

Lemma restriction_fold dish_ingr dish_tgs tokens :
  forall a,
    fold_left
      (fun a rt =>
         if negb (Text.truthy rt) then a
         else if (Text.str_in rt dish_ingr || Text.str_in rt dish_tgs)%bool
              then award (-5) ("Contains restricted item: " ++ rt ++ " (-5)") a
              else a)
      tokens a
    = let hits :=
        filter (fun rt => Text.truthy rt
                          && (Text.str_in rt dish_ingr || Text.str_in rt dish_tgs))%bool
               tokens in
      Tally (t_score a - 5 * Z.of_nat (List.length hits))
            (t_reasons a ++ map restricted_fragment hits)%list.
Proof.
  induction tokens as [|rt tokens IH]; intros [sc rs]; cbn [fold_left filter].
  - cbn. rewrite app_nil_r. f_equal. lia.
  - destruct (Text.truthy rt); cbn [negb andb]; [|apply IH].
    destruct (Text.str_in rt dish_ingr || Text.str_in rt dish_tgs)%bool; [|apply IH].
    rewrite IH. unfold award. cbn [t_score t_reasons map List.length].
    rewrite <- app_assoc. cbn [app]. f_equal. lia.
Qed.

(** The four guarded rules leave the tally alone when their preference
    normalises to the empty string. *)
Lemma guarded_rules_skip_blank prefs dish a :
  (pref_taste prefs = "" -> taste_rule prefs dish a = a)
  /\ (pref_cooking prefs = "" -> cooking_rule prefs dish a = a)
  /\ (pref_occasion prefs = "" -> occasion_rule prefs dish a = a)
  /\ restriction_step dish a "" = a.
Proof.
  unfold taste_rule, cooking_rule, occasion_rule.
  repeat split; try (intros ->; reflexivity).
Qed.

Lemma blank_or_empty o : blank o -> Text.or_empty o = "".
Proof. intros [-> | ->]; reflexivity. Qed.

Lemma all_blank_score_dish prefs dish :
  all_blank prefs ->
  score_dish prefs dish
  = RecommendationOut.mk (Dish.id dish) (Dish.name dish) (Dish.image dish)
                         FALLBACK_REASON 0.
Proof.
  intros (Ht & Hi & Hr & Hc & Ho).
  unfold score_dish, run_rules, occasion_rule, cooking_rule, restriction_rule,
    ingredient_rule, taste_rule, ingredient_matches, restriction_tokens,
    pref_taste, pref_ingredients, pref_cooking, pref_occasion.
  rewrite (blank_or_empty _ Ht), (blank_or_empty _ Hc), (blank_or_empty _ Ho), Hi, Hr.
  reflexivity.
Qed.

Lemma in_firstn {A} n : forall (l : list A) x, In x (firstn n l) -> In x l.
Proof.
  induction n as [|n IH]; intros [|y l] x H; simpl in *; try contradiction.
  destruct H as [H | H]; [left; exact H | right; apply IH; exact H].
Qed.

Lemma in_match_dishes dishes prefs top_n r :
  In r (match_dishes dishes prefs top_n) ->
  exists dish, In dish dishes /\ r = score_dish prefs dish.
Proof.
  unfold match_dishes, slice_to. intro H.
  assert (Hs : In r (sort_desc (map (score_dish prefs) dishes)))
    by (destruct (Z.leb 0 top_n); eapply in_firstn; exact H).
  apply (Permutation_in _ (sort_desc_perm _)) in Hs.
  apply in_map_iff in Hs as [dish [He Hd]].
  exists dish. split; [exact Hd | symmetry; exact He].
Qed.

Lemma neighbours_impl {A} (R R' : A -> A -> Prop) (l : list A) :
  (forall x y, In x l -> In y l -> R x y -> R' x y) ->
  neighbours R l -> neighbours R' l.
Proof.
  induction l as [|x l IH]; intros Himp H; [exact I|].
  apply neighbours_cons in H as [Hx Hl]. apply neighbours_cons. split.
  - destruct l as [|y l]; [exact I|].
    apply Himp; [left; reflexivity | right; left; reflexivity | exact Hx].
  - apply IH; [|exact Hl].
    intros a b Ha Hb. apply Himp; right; assumption.
Qed.

End Scoring.

(** C1.  With an empty catalog the match operation fails with the
    dataset-unavailable error (status 500) for every request, and never
    succeeds with an empty list; whenever it succeeds the catalog was not
    empty and the answer is what [match_dishes] computed. *)
Theorem match_endpoint_empty_catalog prefs :
  match_endpoint [] prefs = HTTPException 500 "Dish dataset not loaded"
  /\ match_endpoint [] prefs <> Returned []
  /\ forall dishes rs,
      match_endpoint dishes prefs = Returned rs ->
      dishes <> []
      /\ rs = map to_entry (match_dishes dishes prefs DEFAULT_TOP_N).
Proof.
  split; [reflexivity|]. split; [discriminate|].
  intros [|d dishes] rs H; simpl in H; [discriminate|].
  split; [discriminate|]. injection H as <-. reflexivity.
Qed.

(** C2.  Pinakbet against the request "bitter, no-pork": one candidate,
    score -2, whose reason contains both the taste fragment and the
    restriction fragment. *)
Theorem pinakbet_scenario :
  exists r,
    match_dishes [pinakbet] bitter_no_pork DEFAULT_TOP_N = [r]
    /\ RecommendationOut.score r = -2
    /\ occurs_in "Matches taste: bitter (+3)" (RecommendationOut.reason r)
    /\ occurs_in "Contains restricted item: pork (-5)" (RecommendationOut.reason r).
Proof.
  eexists. split; [reflexivity|]. split; [reflexivity|]. split.
  - exists "", "; Contains restricted item: pork (-5)". reflexivity.
  - exists "Matches taste: bitter (+3); ", "". reflexivity.
Qed.

(** C6.  The restrictions rule takes 5 off the score once for every entry
    of the parsed restriction list that is non-empty and among the dish's
    normalised ingredients or dietary tags, and appends one fragment
    "Contains restricted item: <token> (-5)" per such entry, in order;
    empty tokens and tokens in neither list change nothing. *)
Theorem restriction_rule_penalty prefs dish a :
  restriction_rule prefs dish a
  = Tally (t_score a - 5 * Z.of_nat (List.length (restriction_hits prefs dish)))
          (t_reasons a ++ map restricted_fragment (restriction_hits prefs dish))%list
  /\ (forall rt,
        In rt (restriction_hits prefs dish)
        <-> In rt (restriction_tokens prefs) /\ rt <> ""
            /\ (In rt (dish_ingredients dish) \/ In rt (dish_tags dish)))
  /\ (forall rt b,
        rt = "" \/ (~ In rt (dish_ingredients dish) /\ ~ In rt (dish_tags dish)) ->
        restriction_step dish b rt = b).
Proof.
  split; [|split].
  - unfold restriction_rule, restriction_hits.
    apply (restriction_fold (dish_ingredients dish) (dish_tags dish)).
  - intro rt. unfold restriction_hits. rewrite filter_In, andb_true_iff, orb_true_iff.
    rewrite truthy_nonempty, !str_in_In. tauto.
  - intros rt b [-> | [Hi Ht]]; [reflexivity|].
    unfold restriction_step.
    destruct (Text.truthy rt); [|reflexivity]. cbn [negb].
    destruct (Text.str_in rt (dish_ingredients dish)) eqn:E1;
      [apply str_in_In in E1; contradiction|].
    destruct (Text.str_in rt (dish_tags dish)) eqn:E2;
      [apply str_in_In in E2; contradiction|].
    reflexivity.
Qed.

(** C7, at the input where the code departs from it.  A blank entry among
    the preferred ingredients meets the blank ingredient of a dish: the
    ingredient rule, the only one without a guard on emptiness, awards +3
    and reports an empty list of matches. *)
Theorem blank_ingredient_still_matches :
  normalize_token "" = ""
  /\ ingredient_rule blank_ingredient dinengdeng (Tally 0 [])
     = Tally 3 ["Contains preferred ingredient(s):  (+3)"]
  /\ score_dish blank_ingredient dinengdeng
     = RecommendationOut.mk 2 "Dinengdeng" None
         "Contains preferred ingredient(s):  (+3)" 3.
Proof. repeat split; reflexivity. Qed.

(** C8, as stated, fails: the reason of a dish that no rule touched is
    not the string ending in a full stop. *)
Lemma spec_fallback_reason_differs :
  [pinakbet] <> []
  /\ all_blank no_preference
  /\ exists r,
      In r (match_dishes [pinakbet] no_preference DEFAULT_TOP_N)
      /\ RecommendationOut.reason r <> SPEC_FALLBACK_REASON.
Proof.
  split; [discriminate|]. split.
  - unfold all_blank, blank. simpl. tauto.
  - eexists. split; [left; reflexivity|]. discriminate.
Qed.

(** C8, amended.  Over a non-empty catalog a request whose fields are all
    empty or absent gives every returned candidate the score 0 and, as its
    whole reason, "No strong positive matches; showing as lower-scoring
    suggestion" (no full stop); neighbours in the result are in descending
    order of name; and for a positive [top_n] the result is not empty. *)
Theorem blank_request_fallback dishes prefs top_n :
  dishes <> [] ->
  all_blank prefs ->
  Forall (fun r =>
            RecommendationOut.score r = 0
            /\ RecommendationOut.reason r
               = "No strong positive matches; showing as lower-scoring suggestion")
         (match_dishes dishes prefs top_n)
  /\ neighbours name_not_smaller (match_dishes dishes prefs top_n)
  /\ (0 < top_n -> match_dishes dishes prefs top_n <> []).
Proof.
  intros Hne Hblank.
  assert (Hall : forall r, In r (match_dishes dishes prefs top_n) ->
                           RecommendationOut.score r = 0
                           /\ RecommendationOut.reason r = FALLBACK_REASON).
  { intros r Hr. apply in_match_dishes in Hr as [dish [_ ->]].
    rewrite (all_blank_score_dish prefs dish Hblank). split; reflexivity. }
  split; [apply Forall_forall; exact Hall|]. split.
  - apply (neighbours_impl outranks); [|apply match_dishes_ranked].
    intros x y Hx Hy [Hlt | [_ Hle]]; [|exact Hle].
    destruct (Hall x Hx) as [Sx _]. destruct (Hall y Hy) as [Sy _]. lia.
  - intros Hpos Hnil.
    pose proof (proj1 (top_n_length_facts dishes prefs top_n Hpos)) as Hlen.
    rewrite Hnil in Hlen. destruct dishes as [|d dishes]; [congruence|].
    cbn [List.length] in Hlen. lia.
Qed.

(** C9.  Looking a dish up by id returns a catalog item with that id
    whenever there is one (the item itself when ids are unique), and raises
    the 404 "Dish not found" error, not a success, when there is none. *)
Theorem get_dish_found_or_404 dishes dish_id :
  (forall d, In d dishes -> Dish.id d = dish_id ->
             exists d', get_dish dishes dish_id = Returned d'
                        /\ In d' dishes /\ Dish.id d' = dish_id)
  /\ (NoDup (map Dish.id dishes) ->
      forall d, In d dishes -> Dish.id d = dish_id ->
                get_dish dishes dish_id = Returned d)
  /\ ((forall d, In d dishes -> Dish.id d <> dish_id) ->
      get_dish dishes dish_id = HTTPException 404 "Dish not found").
Proof.
  induction dishes as [|x dishes (IH1 & IH2 & IH3)]; (split; [|split]).
  - intros d [].
  - intros _ d [].
  - reflexivity.
  - intros d Hd Hid. cbn [get_dish].
    destruct (Z.eqb_spec (Dish.id x) dish_id) as [Hx | Hx].
    + exists x. split; [reflexivity|]. split; [left; reflexivity | exact Hx].
    + destruct Hd as [-> | Hd]; [contradiction|].
      destruct (IH1 d Hd Hid) as [d' (Hg & Hin & Hid')].
      exists d'. split; [exact Hg|]. split; [right; exact Hin | exact Hid'].
  - intros Hnd d Hd Hid. cbn [get_dish]. cbn [map] in Hnd.
    apply NoDup_cons_iff in Hnd as [Hx Hnd].
    destruct (Z.eqb_spec (Dish.id x) dish_id) as [Hx' | Hx'].
    + destruct Hd as [-> | Hd]; [reflexivity|].
      exfalso. apply Hx. rewrite Hx', <- Hid. apply in_map. exact Hd.
    + destruct Hd as [-> | Hd]; [contradiction|]. apply IH2; assumption.
  - intro Hnone. cbn [get_dish].
    destruct (Z.eqb_spec (Dish.id x) dish_id) as [Hx | Hx].
    + exfalso. apply (Hnone x); [left; reflexivity | exact Hx].
    + apply IH3. intros d Hd. apply Hnone. right. exact Hd.
Qed.

(** C10.  When the occasion rule fires, its fragment quotes the occasion
    as the request spelled it, "Suitable for: <prefs.occasion> (+1)", and
    it is the last fragment of the dish; the taste and cooking-method
    fragments quote the dish's own fields instead. *)
Theorem occasion_fragment_quotes_request prefs dish a :
  occasion_fires prefs dish ->
  exists original,
    PreferenceIn.occasion prefs = Some original
    /\ occasion_rule prefs dish a
       = award 1 ("Suitable for: " ++ original ++ " (+1)") a
    /\ (exists earlier,
          t_reasons (run_rules prefs dish)
          = (earlier ++ [("Suitable for: " ++ original ++ " (+1)")%string])%list)
    /\ (taste_fires prefs dish ->
        taste_rule prefs dish a
        = award 3 ("Matches taste: " ++ Dish.taste dish ++ " (+3)") a)
    /\ (cooking_fires prefs dish ->
        cooking_rule prefs dish a
        = award 2 ("Cooking method matches: " ++ Dish.cooking_method dish ++ " (+2)") a).
Proof.
  intros [Hne Hin]. apply str_in_In in Hin.
  assert (Hocc : forall b, occasion_rule prefs dish b
                 = award 1 ("Suitable for: " ++ Text.fmt_opt (PreferenceIn.occasion prefs)
                            ++ " (+1)") b)
    by (intro b; unfold occasion_rule; rewrite Hne, Hin; reflexivity).
  destruct (PreferenceIn.occasion prefs) as [original|] eqn:Ho.
  - exists original. split; [reflexivity|]. split; [apply Hocc|]. split; [|split].
    + unfold run_rules. rewrite Hocc. cbn [award t_reasons Text.fmt_opt].
      eexists. reflexivity.
    + intros [Ht He]. unfold taste_rule. rewrite Ht, He, String.eqb_refl. reflexivity.
    + intros [Hc He]. unfold cooking_rule. rewrite Hc, He, String.eqb_refl. reflexivity.
  - unfold pref_occasion in Hne. rewrite Ho in Hne. discriminate.
Qed.

(** ** The theorems at concrete inputs *)

(** The two-dish catalog, ranked for the request "bitter, no-pork". *)
Lemma match_dishes_sorted_witness :
  0 < 3
  /\ neighbours outranks (match_dishes [pinakbet; dinengdeng] bitter_no_pork 3).
Proof.
  split; [reflexivity|].
  apply (match_dishes_sorted [pinakbet; dinengdeng] bitter_no_pork 3).
  reflexivity.
Defined.

(** Two dishes, [top_n = 3]: both are returned. *)
Lemma match_dishes_length_witness :
  0 < 3
  /\ Z.of_nat (List.length (match_dishes [pinakbet; dinengdeng] bitter_no_pork 3))
     = Z.min 3 (Z.of_nat (List.length [pinakbet; dinengdeng]))
  /\ (Z.of_nat (List.length [pinakbet; dinengdeng]) < 3 ->
      Permutation (match_dishes [pinakbet; dinengdeng] bitter_no_pork 3)
                  (map (score_dish bitter_no_pork) [pinakbet; dinengdeng])
      /\ neighbours outranks (match_dishes [pinakbet; dinengdeng] bitter_no_pork 3)).
Proof.
  split; [reflexivity|].
  apply (match_dishes_length [pinakbet; dinengdeng] bitter_no_pork 3).
  reflexivity.
Defined.

(** The empty request over the two-dish catalog. *)
Lemma blank_request_fallback_witness :
  [pinakbet; dinengdeng] <> []
  /\ all_blank no_preference
  /\ Forall (fun r =>
               RecommendationOut.score r = 0
               /\ RecommendationOut.reason r
                  = "No strong positive matches; showing as lower-scoring suggestion")
            (match_dishes [pinakbet; dinengdeng] no_preference 3)
  /\ neighbours name_not_smaller (match_dishes [pinakbet; dinengdeng] no_preference 3)
  /\ (0 < 3 -> match_dishes [pinakbet; dinengdeng] no_preference 3 <> []).
Proof.
  assert (Hne : [pinakbet; dinengdeng] <> []) by discriminate.
  assert (Hb : all_blank no_preference)
    by (repeat split; try reflexivity; left; reflexivity).
  split; [exact Hne|]. split; [exact Hb|].
  exact (blank_request_fallback [pinakbet; dinengdeng] no_preference 3 Hne Hb).
Defined.

(** "EVERYDAY!" in the request, "everyday" in the catalog: the fragment
    carries the request's spelling. *)
Lemma occasion_fragment_witness :
  occasion_fires loud_occasion pinakbet
  /\ exists original,
      PreferenceIn.occasion loud_occasion = Some original
      /\ occasion_rule loud_occasion pinakbet (Tally 0 [])
         = award 1 ("Suitable for: " ++ original ++ " (+1)") (Tally 0 [])
      /\ (exists earlier,
            t_reasons (run_rules loud_occasion pinakbet)
            = (earlier ++ [("Suitable for: " ++ original ++ " (+1)")%string])%list)
      /\ (taste_fires loud_occasion pinakbet ->
          taste_rule loud_occasion pinakbet (Tally 0 [])
          = award 3 ("Matches taste: " ++ Dish.taste pinakbet ++ " (+3)") (Tally 0 []))
      /\ (cooking_fires loud_occasion pinakbet ->
          cooking_rule loud_occasion pinakbet (Tally 0 [])
          = award 2 ("Cooking method matches: " ++ Dish.cooking_method pinakbet ++ " (+2)")
                  (Tally 0 [])).
Proof.
  assert (Hf : occasion_fires loud_occasion pinakbet)
    by (split; [reflexivity | left; reflexivity]).
  split; [exact Hf|].
  exact (occasion_fragment_quotes_request loud_occasion pinakbet (Tally 0 []) Hf).
Defined.

(** What the request "EVERYDAY!" yields for Pinakbet. *)
Example loud_occasion_reason :
  RecommendationOut.reason (score_dish loud_occasion pinakbet)
  = "Suitable for: EVERYDAY! (+1)".
Proof. reflexivity. Qed.

(** The empty request ranks the two dishes by name, descending. *)
Example no_preference_order :
  map RecommendationOut.name (match_dishes [dinengdeng; pinakbet] no_preference 3)
  = ["Pinakbet"; "Dinengdeng"].
Proof. reflexivity. Qed.

(** ** More on the normaliser and the restriction parser *)

Section Tokens.

Import Text.

Lemma normal_normalize_token s : normal (normalize_token s).
Proof.
  split; [apply normalize_token_tidy|].
  unfold normalize_token, strip. apply rstrip_idem.
Qed.

Lemma normal_strip t : normal t -> strip t = t.
Proof.
  intros [Ht Hr]. unfold strip. rewrite (tidy_lstrip_fixed t Ht). exact Hr.
Qed.

Lemma normal_fixed t : normal t -> normalize_token t = t.
Proof.
  intros [Ht Hr]. unfold normalize_token.
  rewrite (tidy_lower t true Ht), (tidy_sub_non_alnum t false (tidy_weaken t Ht)).
  apply normal_strip. split; assumption.
Qed.

Lemma tidy_chars t :
  forall b, tidy b t = true ->
  forall c, In c (list_ascii_of_string t) -> is_alnum c = true \/ c = " "%char.
Proof.
  induction t as [|a t IH]; intros b H c Hc; simpl in *; [contradiction|].
  destruct (is_alnum a) eqn:Ha.
  - destruct Hc as [<- | Hc]; [left; exact Ha | exact (IH _ H c Hc)].
  - apply andb_prop in H as [H Ht]. apply andb_prop in H as [H _].
    apply space_char in H.
    destruct Hc as [<- | Hc]; [right; exact H | exact (IH _ Ht c Hc)].
Qed.

Lemma tidy_no_double_space before after :
  forall b, tidy b (before ++ String " " (String " " after)) = false.
Proof.
  induction before as [|a before IH]; intro b; simpl.
  - destruct b; reflexivity.
  - destruct (is_alnum a); [apply IH|].
    rewrite IH. apply andb_false_r.
Qed.

Lemma rstrip_snoc_space u : rstrip (u ++ " ") = rstrip u.
Proof.
  induction u as [|a u IH]; [reflexivity|].
  cbn [append]. rewrite !rstrip_cons, IH. reflexivity.
Qed.

Lemma rstrip_length u : (String.length (rstrip u) <= String.length u)%nat.
Proof.
  induction u as [|a u IH]; [apply le_n|].
  rewrite rstrip_cons. destruct (rstrip u) as [|a' r].
  - destruct (is_space a); simpl; lia.
  - simpl in *. lia.
Qed.

Lemma length_snoc u c : String.length (u ++ String c "") = S (String.length u).
Proof. induction u as [|a u IH]; simpl; [reflexivity | rewrite IH; reflexivity]. Qed.


Lemma rstrip_grow c t : t <> "" -> rstrip t = t -> rstrip (String c t) = String c t.
Proof.
  intros Hne Hr. rewrite rstrip_cons, Hr.
  destruct t; [congruence | reflexivity].
Qed.

Lemma tidy_replace_char old new t :
  is_alnum old = false -> old <> " "%char ->
  forall b, tidy b t = true -> replace_char old new t = t.
Proof.
  intros Hold Hsp. induction t as [|a t IH]; intros b H; simpl in *; [reflexivity|].
  destruct (is_alnum a) eqn:Ha.
  - rewrite (IH _ H). destruct (Ascii.eqb_spec a old) as [-> | _]; [congruence | reflexivity].
  - apply andb_prop in H as [H Ht]. apply andb_prop in H as [H _].
    apply space_char in H. subst a. rewrite (IH _ Ht).
    destruct (Ascii.eqb_spec " "%char old) as [<- | _]; [congruence | reflexivity].
Qed.




End Tokens.

(** X1.  The normaliser's output holds only a-z, 0-9 and spaces, never two
    spaces in a row, and neither starts nor ends with a space. *)
Theorem normalize_token_shape s :
  (forall c, In c (list_ascii_of_string (normalize_token s)) ->
             Text.is_alnum c = true \/ c = " "%char)
  /\ ~ occurs_in "  " (normalize_token s)
  /\ (forall u, normalize_token s <> String " " u)
  /\ (forall u, normalize_token s <> u ++ " ").
Proof.
  destruct (normal_normalize_token s) as [Ht Hr].
  split; [apply (tidy_chars _ true Ht)|]. split; [|split].
  - intros (before & after & He). rewrite He in Ht.
    cbn [append] in Ht. rewrite tidy_no_double_space in Ht. discriminate.
  - intros u He. rewrite He in Ht. discriminate.
  - intros u He. rewrite He in Hr. rewrite rstrip_snoc_space in Hr.
    pose proof (rstrip_length u) as Hl. rewrite Hr, length_snoc in Hl. lia.
Qed.


(** X3.  For a token [t] that normalises to something non-empty, the
    phrases "no t", "no-t" and "no_t" built from the normalised token all
    parse to that token. *)
Theorem parse_restriction_token_negated s :
  normalize_token s <> "" ->
  parse_restriction_token ("no " ++ normalize_token s) = normalize_token s
  /\ parse_restriction_token ("no-" ++ normalize_token s) = normalize_token s
  /\ parse_restriction_token ("no_" ++ normalize_token s) = normalize_token s.
Proof.
  intro Hne. pose proof (normal_normalize_token s) as Hn.
  pose proof Hn as [Ht Hr]. set (t := normalize_token s) in *.
  assert (Hstrip : Text.strip (String "n" (String "o" (String " " t)))
                   = String "n" (String "o" (String " " t))).
  { unfold Text.strip. cbn [Text.lstrip]. change (Text.is_space "n") with false. cbv iota.
    do 3 (apply rstrip_grow; [first [discriminate | exact Hne]|]). exact Hr. }
  assert (Hgo : normalize_token
                  (Text.strip (Text.sub_leading_no (String "n" (String "o" (String " " t)))))
                = t).
  { cbn [Text.sub_leading_no]. change (Text.is_space " ") with true. cbv iota.
    rewrite (tidy_lstrip_fixed t Ht), (normal_strip t Hn). apply normal_fixed. exact Hn. }
  assert (Hpre : forall sep,
             sep = " "%char \/ sep = "-"%char \/ sep = "_"%char ->
             Text.replace_char "-" " "
               (Text.replace_char "_" " "
                  (Text.lower (String "n" (String "o" (String sep t)))))
             = String "n" (String "o" (String " " t))).
  { intros sep Hs. cbn [Text.lower Text.replace_char].
    rewrite (tidy_lower t true Ht).
    rewrite (tidy_replace_char "_" " " t eq_refl ltac:(discriminate) true Ht).
    rewrite (tidy_replace_char "-" " " t eq_refl ltac:(discriminate) true Ht).
    destruct Hs as [-> | [-> | ->]]; reflexivity. }
  unfold parse_restriction_token. cbn [append].
  rewrite !Hpre by tauto. rewrite Hstrip.
  repeat split; exact Hgo.
Qed.

Lemma parse_restriction_token_negated_witness :
  normalize_token "Pork!" <> ""
  /\ parse_restriction_token ("no " ++ normalize_token "Pork!") = normalize_token "Pork!"
  /\ parse_restriction_token ("no-" ++ normalize_token "Pork!") = normalize_token "Pork!"
  /\ parse_restriction_token ("no_" ++ normalize_token "Pork!") = normalize_token "Pork!".
Proof.
  assert (H : normalize_token "Pork!" <> "") by discriminate.
  split; [exact H|]. exact (parse_restriction_token_negated "Pork!" H).
Defined.

(** ** More on scoring one dish *)

Section Tally.

Variable prefs : PreferenceIn.t.
Variable dish : Dish.t.

Lemma award_explained delta f a :
  rule_fragment f -> untouched_or_explained a -> untouched_or_explained (award delta f a).
Proof.
  intros Hf [Hall _]. split; cbn [award t_reasons].
  - apply Forall_app. split; [exact Hall | constructor; [exact Hf | constructor]].
  - intro H. apply app_eq_nil in H as [_ H]. discriminate.
Qed.

Ltac rule_cases :=
  repeat match goal with
         | |- context [if ?b then _ else _] => destruct b
         end;
  try assumption;
  try (apply award_explained; [cbn; discriminate | assumption]).

Lemma taste_rule_explained a :
  untouched_or_explained a -> untouched_or_explained (taste_rule prefs dish a).
Proof. intro H. unfold taste_rule. rule_cases. Qed.

Lemma ingredient_rule_explained a :
  untouched_or_explained a -> untouched_or_explained (ingredient_rule prefs dish a).
Proof.
  intro H. unfold ingredient_rule.
  destruct (ingredient_matches prefs dish); [exact H|].
  apply award_explained; [cbn; discriminate | exact H].
Qed.

Lemma restriction_rule_explained a :
  untouched_or_explained a -> untouched_or_explained (restriction_rule prefs dish a).
Proof.
  unfold restriction_rule. revert a.
  induction (restriction_tokens prefs) as [|rt l IH]; intros a H; [exact H|].
  cbn [fold_left]. apply IH. unfold restriction_step. rule_cases.
Qed.

Lemma cooking_rule_explained a :
  untouched_or_explained a -> untouched_or_explained (cooking_rule prefs dish a).
Proof. intro H. unfold cooking_rule. rule_cases. Qed.

Lemma occasion_rule_explained a :
  untouched_or_explained a -> untouched_or_explained (occasion_rule prefs dish a).
Proof. intro H. unfold occasion_rule. rule_cases. Qed.

Lemma run_rules_explained : untouched_or_explained (run_rules prefs dish).
Proof.
  unfold run_rules.
  apply occasion_rule_explained, cooking_rule_explained, restriction_rule_explained,
    ingredient_rule_explained, taste_rule_explained.
  split; [constructor | reflexivity].
Qed.

(** The joined reasons begin like the first fragment. *)
Lemma concat_head sep c f rest :
  exists tail, String.concat sep (String c f :: rest) = String c tail.
Proof. destruct rest; cbn; eexists; reflexivity. Qed.

(** Score changes, rule by rule. *)
Lemma taste_rule_score a :
  t_score (taste_rule prefs dish a)
  = t_score a + (if (Text.truthy (pref_taste prefs)
                     && String.eqb (pref_taste prefs) (dish_taste dish))%bool
                 then 3 else 0).
Proof.
  unfold taste_rule. destruct (Text.truthy (pref_taste prefs)); cbn [andb];
    [destruct (String.eqb _ _)|]; cbn; lia.
Qed.

Lemma ingredient_rule_score a :
  t_score (ingredient_rule prefs dish a)
  = t_score a + (match ingredient_matches prefs dish with [] => 0 | _ :: _ => 3 end).
Proof. unfold ingredient_rule. destruct (ingredient_matches prefs dish); cbn; lia. Qed.

Lemma restriction_rule_score a :
  t_score (restriction_rule prefs dish a)
  = t_score a - 5 * Z.of_nat (List.length (restriction_hits prefs dish)).
Proof.
  unfold restriction_rule, restriction_hits.
  assert (H := restriction_fold (dish_ingredients dish) (dish_tags dish)
                                (restriction_tokens prefs) a).
  cbv zeta in H. unfold restriction_step. rewrite H. reflexivity.
Qed.

Lemma cooking_rule_score a :
  t_score (cooking_rule prefs dish a)
  = t_score a + (if (Text.truthy (pref_cooking prefs)
                     && String.eqb (pref_cooking prefs) (dish_cooking dish))%bool
                 then 2 else 0).
Proof.
  unfold cooking_rule. destruct (Text.truthy (pref_cooking prefs)); cbn [andb];
    [destruct (String.eqb _ _)|]; cbn; lia.
Qed.

Lemma occasion_rule_score a :
  t_score (occasion_rule prefs dish a)
  = t_score a + (if (Text.truthy (pref_occasion prefs)
                     && Text.str_in (pref_occasion prefs) (dish_occasions dish))%bool
                 then 1 else 0).
Proof.
  unfold occasion_rule. destruct (Text.truthy (pref_occasion prefs)); cbn [andb];
    [destruct (Text.str_in _ _)|]; cbn; lia.
Qed.

Lemma fallback_score a : t_score (fallback a) = t_score a.
Proof. unfold fallback. destruct (t_reasons a); reflexivity. Qed.

Lemma score_dish_score :
  RecommendationOut.score (score_dish prefs dish) = t_score (run_rules prefs dish).
Proof. unfold score_dish. cbn. apply fallback_score. Qed.

Lemma restriction_hits_bound :
  (List.length (restriction_hits prefs dish)
   <= List.length (PreferenceIn.dietary_restrictions prefs))%nat.
Proof.
  unfold restriction_hits, restriction_tokens.
  etransitivity; [apply filter_length_le|].
  rewrite length_map. apply filter_length_le.
Qed.

End Tally.

(** X4.  The score of a dish lies between [-5 h] and [9 - 5 h], where [h]
    counts the restriction tokens that hit the dish, and [h] is at most
    the number of restrictions in the request. *)
Theorem score_dish_bounds prefs dish :
  - 5 * Z.of_nat (List.length (restriction_hits prefs dish))
  <= RecommendationOut.score (score_dish prefs dish)
  <= 9 - 5 * Z.of_nat (List.length (restriction_hits prefs dish))
  /\ (List.length (restriction_hits prefs dish)
      <= List.length (PreferenceIn.dietary_restrictions prefs))%nat.
Proof.
  split; [|apply restriction_hits_bound].
  rewrite score_dish_score. unfold run_rules.
  rewrite occasion_rule_score, cooking_rule_score, restriction_rule_score,
    ingredient_rule_score, taste_rule_score. cbn [t_score].
  repeat match goal with
         | |- context [if ?b then _ else _] => destruct b
         | |- context [match ?l with [] => _ | _ :: _ => _ end] => destruct l
         end; lia.
Qed.

(** X5.  Dietary restrictions act on the score through the penalty alone:
    the score under a request is the score under the same request without
    its restrictions, less 5 for every restriction token that hits. *)
Theorem restrictions_only_penalise prefs dish :
  RecommendationOut.score (score_dish prefs dish)
  = RecommendationOut.score (score_dish (without_restrictions prefs) dish)
    - 5 * Z.of_nat (List.length (restriction_hits prefs dish)).
Proof.
  rewrite !score_dish_score. unfold run_rules.
  rewrite !occasion_rule_score, !cooking_rule_score, !restriction_rule_score,
    !ingredient_rule_score, !taste_rule_score.
  change (restriction_hits (without_restrictions prefs) dish) with (@nil string).
  change (pref_occasion (without_restrictions prefs)) with (pref_occasion prefs).
  change (pref_cooking (without_restrictions prefs)) with (pref_cooking prefs).
  change (pref_taste (without_restrictions prefs)) with (pref_taste prefs).
  change (ingredient_matches (without_restrictions prefs) dish)
    with (ingredient_matches prefs dish).
  cbn [List.length t_score]. lia.
Qed.

(** X6.  A candidate carries the fallback reason exactly when no rule
    wrote a fragment for it, and such a candidate has score 0. *)
Theorem fallback_reason_means_untouched prefs dish :
  (RecommendationOut.reason (score_dish prefs dish)
   = "No strong positive matches; showing as lower-scoring suggestion"
   <-> t_reasons (run_rules prefs dish) = [])
  /\ (RecommendationOut.reason (score_dish prefs dish)
      = "No strong positive matches; showing as lower-scoring suggestion"
      -> RecommendationOut.score (score_dish prefs dish) = 0).
Proof.
  destruct (run_rules_explained prefs dish) as [Hall Hzero].
  assert (Hiff : RecommendationOut.reason (score_dish prefs dish) = FALLBACK_REASON
                 <-> t_reasons (run_rules prefs dish) = []).
  { unfold score_dish, fallback. cbn [RecommendationOut.reason].
    destruct (t_reasons (run_rules prefs dish)) as [|f rest] eqn:Hr.
    - split; reflexivity.
    - split; [|discriminate]. intro He. exfalso.
      apply Forall_inv in Hall. destruct f as [|c f]; [exact Hall|].
      destruct (concat_head "; " c f rest) as [tail Ht].
      rewrite Hr, Ht in He. injection He as Hc _.
      exact (Hall Hc). }
  split; [exact Hiff|].
  intro H. rewrite score_dish_score. apply Hzero. apply Hiff. exact H.
Qed.

Lemma score_dish_reason prefs dish :
  RecommendationOut.reason (score_dish prefs dish) <> "".
Proof.
  destruct (run_rules_explained prefs dish) as [Hall _].
  unfold score_dish, fallback. cbn [RecommendationOut.reason].
  destruct (t_reasons (run_rules prefs dish)) as [|f rest] eqn:Hr; [discriminate|].
  apply Forall_inv in Hall. destruct f as [|c f]; [contradiction|].
  destruct (concat_head "; " c f rest) as [tail Ht].
  rewrite Hr, Ht. discriminate.
Qed.

(** X7.  Every candidate that [match_dishes] returns has a reason, and
    the reason is not the empty string. *)
Theorem reason_never_empty dishes prefs top_n r :
  In r (match_dishes dishes prefs top_n) ->
  RecommendationOut.reason r <> "".
Proof.
  intro Hr. apply in_match_dishes in Hr as [dish [_ ->]].
  apply score_dish_reason.
Qed.

Lemma reason_never_empty_witness :
  In (score_dish bitter_no_pork pinakbet) (match_dishes [pinakbet] bitter_no_pork 3)
  /\ RecommendationOut.reason (score_dish bitter_no_pork pinakbet) <> "".
Proof.
  assert (H : In (score_dish bitter_no_pork pinakbet)
                 (match_dishes [pinakbet] bitter_no_pork 3))
    by (left; reflexivity).
  split; [exact H|].
  exact (reason_never_empty [pinakbet] bitter_no_pork 3 _ H).
Defined.

(** ** The ingredient rule *)

Section Ingredients.

Import Text.

Lemma insert_asc_In x l y : In y (insert_asc x l) <-> y = x \/ In y l.
Proof.
  induction l as [|z l IH]; cbn [insert_asc].
  - cbn. intuition.
  - destruct (String.ltb z x); cbn [In]; [rewrite IH|]; intuition.
Qed.

Lemma sorted_asc_In l y : In y (sorted_asc l) <-> In y l.
Proof.
  induction l as [|x l IH]; [reflexivity|].
  cbn [sorted_asc fold_right]. fold (sorted_asc l).
  rewrite insert_asc_In, IH. cbn. intuition.
Qed.

Lemma not_ltb_lt x y : String.ltb y x = false -> x <> y -> String.ltb x y = true.
Proof.
  unfold String.ltb. intros H Hne. rewrite String.compare_antisym.
  destruct (String.compare y x) eqn:E; try reflexivity; try discriminate.
  apply String.compare_eq_iff in E. congruence.
Qed.

Lemma insert_asc_head a x l :
  String.ltb a x = true ->
  before_head (fun a b => String.ltb a b = true) a l ->
  before_head (fun a b => String.ltb a b = true) a (insert_asc x l).
Proof.
  intros Hx Hl. destruct l as [|z l]; [exact Hx|].
  cbn [insert_asc]. destruct (String.ltb z x); assumption.
Qed.

Lemma insert_asc_ascending x l :
  ~ In x l -> ascending l -> ascending (insert_asc x l).
Proof.
  unfold ascending. induction l as [|z l IH]; intros Hx H; [exact I|].
  apply neighbours_cons in H as [Hz Hl].
  cbn [insert_asc]. destruct (String.ltb z x) eqn:E.
  - apply neighbours_cons. split.
    + apply insert_asc_head; assumption.
    + apply IH; [|exact Hl]. intro Hin. apply Hx. right. exact Hin.
  - apply neighbours_cons. split.
    + apply not_ltb_lt; [exact E|]. intro He. apply Hx. left. symmetry. exact He.
    + apply neighbours_cons. split; assumption.
Qed.

Lemma sorted_asc_ascending l : NoDup l -> ascending (sorted_asc l).
Proof.
  induction 1 as [|x l Hx Hnd IH]; [exact I|].
  cbn [sorted_asc fold_right]. fold (sorted_asc l).
  apply insert_asc_ascending; [|exact IH].
  rewrite sorted_asc_In. exact Hx.
Qed.

Lemma ingredient_matches_In prefs dish m :
  In m (ingredient_matches prefs dish)
  <-> In m (pref_ingredients prefs) /\ In m (dish_ingredients dish).
Proof.
  unfold ingredient_matches. rewrite nodup_In, filter_In, str_in_In. reflexivity.
Qed.

End Ingredients.

(** X8.  The ingredient rule fires at most once per dish.  When some
    preferred ingredient and some ingredient of the dish have the same
    normalised form it adds 3 and one fragment, which lists exactly the
    common normalised tokens, each once, in strictly ascending order;
    when there is none it changes nothing. *)
Theorem ingredient_rule_once prefs dish a :
  ((exists m, In m (pref_ingredients prefs) /\ In m (dish_ingredients dish)) ->
   exists matches,
     matches <> []
     /\ ascending matches
     /\ (forall m, In m matches
                   <-> In m (pref_ingredients prefs) /\ In m (dish_ingredients dish))
     /\ ingredient_rule prefs dish a
        = award 3 ("Contains preferred ingredient(s): "
                   ++ String.concat ", " matches ++ " (+3)") a)
  /\ ((forall m, In m (pref_ingredients prefs) -> ~ In m (dish_ingredients dish)) ->
      ingredient_rule prefs dish a = a).
Proof.
  split.
  - intros [m Hm]. apply ingredient_matches_In in Hm.
    exists (Text.sorted_asc (ingredient_matches prefs dish)).
    split; [|split; [|split]].
    + intro He. apply sorted_asc_In in Hm. rewrite He in Hm. exact Hm.
    + apply sorted_asc_ascending. apply NoDup_nodup.
    + intro x. rewrite sorted_asc_In. apply ingredient_matches_In.
    + unfold ingredient_rule.
      destruct (ingredient_matches prefs dish); [contradiction | reflexivity].
  - intro Hnone. unfold ingredient_rule.
    destruct (ingredient_matches prefs dish) as [|m l] eqn:E; [reflexivity|].
    exfalso. assert (Hm : In m (ingredient_matches prefs dish))
      by (rewrite E; left; reflexivity).
    apply ingredient_matches_In in Hm as [Hp Hd]. exact (Hnone m Hp Hd).
Qed.

(** ** More on ranking and selection *)

Section Selection.

Lemma ranked_head x l :
  neighbours outranks (x :: l) -> forall y, In y l -> score_ge x y.
Proof.
  revert x. induction l as [|z l IH]; intros x H y Hy; [contradiction|].
  apply neighbours_cons in H as [Hz Hl]. cbn [before_head] in Hz.
  assert (Hxz : score_ge x z) by (unfold score_ge; destruct Hz as [? | [? _]]; lia).
  destruct Hy as [<- | Hy]; [exact Hxz|].
  specialize (IH z Hl y Hy). unfold score_ge in *. lia.
Qed.

Lemma ranked_app l1 l2 :
  neighbours outranks (l1 ++ l2)%list ->
  forall x y, In x l1 -> In y l2 -> score_ge x y.
Proof.
  induction l1 as [|a l1 IH]; intros H x y Hx Hy; [contradiction|].
  cbn [app] in H. destruct Hx as [<- | Hx].
  - apply (ranked_head _ _ H). apply in_or_app. right. exact Hy.
  - apply neighbours_cons in H as [_ H]. exact (IH H x y Hx Hy).
Qed.

(** Whatever [top_n] is, the slice is an initial segment. *)
Lemma slice_to_firstn {A} (l : list A) n : exists k, slice_to l n = firstn k l.
Proof. unfold slice_to. destruct (Z.leb 0 n); eexists; reflexivity. Qed.

Lemma filter_firstn {A} (p : A -> bool) n :
  forall l, exists k, filter p (firstn n l) = firstn k (filter p l).
Proof.
  induction n as [|n IH]; intro l; [exists 0%nat; reflexivity|].
  destruct l as [|x l]; [exists 0%nat; reflexivity|].
  destruct (IH l) as [k Hk]. cbn [firstn filter].
  destruct (p x); [exists (S k); cbn [firstn]; rewrite Hk; reflexivity | exists k; exact Hk].
Qed.

Lemma NoDup_firstn {A} n (l : list A) : NoDup l -> NoDup (firstn n l).
Proof.
  intro H. rewrite <- (firstn_skipn n l) in H.
  exact (NoDup_app_remove_r _ _ H).
Qed.

Lemma result_ids dishes prefs :
  map RecommendationOut.id (map (score_dish prefs) dishes) = map Dish.id dishes.
Proof. rewrite map_map. apply map_ext. reflexivity. Qed.

End Selection.

(** X9.  Selection keeps the best: a dish that scores strictly higher
    than some returned candidate is itself among the returned
    candidates. *)
Theorem higher_score_is_returned dishes prefs top_n r dish :
  In r (match_dishes dishes prefs top_n) ->
  In dish dishes ->
  RecommendationOut.score r < RecommendationOut.score (score_dish prefs dish) ->
  In (score_dish prefs dish) (match_dishes dishes prefs top_n).
Proof.
  unfold match_dishes. set (s := sort_desc (map (score_dish prefs) dishes)).
  destruct (slice_to_firstn s top_n) as [k ->].
  intros Hr Hd Hlt.
  assert (Hs : In (score_dish prefs dish) s).
  { apply (Permutation_in _ (Permutation_sym (sort_desc_perm _))).
    apply in_map. exact Hd. }
  rewrite <- (firstn_skipn k s) in Hs. apply in_app_or in Hs as [Hs | Hs]; [exact Hs|].
  exfalso.
  pose proof (sort_desc_ranked (map (score_dish prefs) dishes)) as Hrk.
  fold s in Hrk. rewrite <- (firstn_skipn k s) in Hrk.
  pose proof (ranked_app _ _ Hrk _ _ Hr Hs) as Hge. unfold score_ge in Hge. lia.
Qed.

Lemma higher_score_is_returned_witness :
  In (score_dish bitter_no_pork pinakbet)
     (match_dishes [pinakbet; dinengdeng] bitter_no_pork 2)
  /\ In dinengdeng [pinakbet; dinengdeng]
  /\ RecommendationOut.score (score_dish bitter_no_pork pinakbet)
     < RecommendationOut.score (score_dish bitter_no_pork dinengdeng)
  /\ In (score_dish bitter_no_pork dinengdeng)
        (match_dishes [pinakbet; dinengdeng] bitter_no_pork 2).
Proof.
  assert (H1 : In (score_dish bitter_no_pork pinakbet)
                  (match_dishes [pinakbet; dinengdeng] bitter_no_pork 2))
    by (right; left; reflexivity).
  assert (H2 : In dinengdeng [pinakbet; dinengdeng]) by (right; left; reflexivity).
  assert (H3 : RecommendationOut.score (score_dish bitter_no_pork pinakbet)
               < RecommendationOut.score (score_dish bitter_no_pork dinengdeng))
    by reflexivity.
  repeat split; try assumption.
  exact (higher_score_is_returned _ _ 2 _ _ H1 H2 H3).
Defined.

(** X10.  Every returned candidate copies the id, name and image of a
    dish of the catalog, and when the catalog's ids are distinct no id is
    returned twice. *)
Theorem result_ids_from_catalog dishes prefs top_n :
  (forall r, In r (match_dishes dishes prefs top_n) ->
             exists dish, In dish dishes
                          /\ RecommendationOut.id r = Dish.id dish
                          /\ RecommendationOut.name r = Dish.name dish
                          /\ RecommendationOut.image r = Dish.image dish)
  /\ (NoDup (map Dish.id dishes) ->
      NoDup (map RecommendationOut.id (match_dishes dishes prefs top_n))).
Proof.
  split.
  - intros r Hr. apply in_match_dishes in Hr as [dish [Hd ->]].
    exists dish. repeat split. exact Hd.
  - intro Hnd. unfold match_dishes.
    destruct (slice_to_firstn (sort_desc (map (score_dish prefs) dishes)) top_n) as [k ->].
    rewrite <- firstn_map. apply NoDup_firstn.
    apply (Permutation_NoDup (l := map Dish.id dishes)); [|exact Hnd].
    rewrite <- (result_ids dishes prefs).
    apply Permutation_map, Permutation_sym, sort_desc_perm.
Qed.

(** X11.  Ties are settled by catalog order: the returned candidates that
    share one (score, name) key are an initial segment of the catalog's
    dishes with that key, in the order of the catalog. *)
Theorem equal_keys_keep_catalog_order dishes prefs top_n key :
  exists k,
    filter (fun r => same_key r key) (match_dishes dishes prefs top_n)
    = firstn k (filter (fun r => same_key r key) (map (score_dish prefs) dishes)).
Proof.
  unfold match_dishes.
  destruct (slice_to_firstn (sort_desc (map (score_dish prefs) dishes)) top_n) as [n ->].
  destruct (filter_firstn (fun r => same_key r key) n
                          (sort_desc (map (score_dish prefs) dishes))) as [k Hk].
  exists k. rewrite Hk, sort_desc_stable. reflexivity.
Qed.


(** X13.  Asking for fewer candidates gives an initial segment of what
    asking for more gives: for [0 <= n <= m] the result for [n] is the
    first [n] entries of the result for [m]. *)
Theorem match_dishes_prefix dishes prefs n m :
  0 <= n <= m ->
  match_dishes dishes prefs n = firstn (Z.to_nat n) (match_dishes dishes prefs m).
Proof.
  intros [Hn Hm]. unfold match_dishes, slice_to.
  destruct (Z.leb_spec 0 n); [|lia]. destruct (Z.leb_spec 0 m); [|lia].
  rewrite firstn_firstn. f_equal. lia.
Qed.

Lemma match_dishes_prefix_witness :
  0 <= 1 <= 3
  /\ match_dishes [pinakbet; dinengdeng] bitter_no_pork 1
     = firstn (Z.to_nat 1) (match_dishes [pinakbet; dinengdeng] bitter_no_pork 3).
Proof.
  assert (H : 0 <= 1 <= 3) by (split; discriminate).
  split; [exact H|].
  exact (match_dishes_prefix [pinakbet; dinengdeng] bitter_no_pork 1 3 H).
Defined.

(** X14.  Over a non-empty catalog the match endpoint succeeds with
    between one and three recommendations, [min(3, len(dishes))] of them,
    each with a non-empty reason. *)
Theorem match_endpoint_count dishes prefs :
  dishes <> [] ->
  exists rs,
    match_endpoint dishes prefs = Returned rs
    /\ Z.of_nat (List.length rs) = Z.min 3 (Z.of_nat (List.length dishes))
    /\ (1 <= List.length rs <= 3)%nat
    /\ Forall (fun e => e_reason e <> "") rs.
Proof.
  intro Hne. destruct dishes as [|d dishes]; [congruence|].
  eexists. split; [reflexivity|].
  assert (Hlen := proj1 (top_n_length_facts (d :: dishes) prefs DEFAULT_TOP_N eq_refl)).
  rewrite length_map. split; [exact Hlen|]. split.
  - unfold DEFAULT_TOP_N in *. cbn [List.length] in Hlen. lia.
  - apply Forall_forall. intros e He. apply in_map_iff in He as [r [<- Hr]].
    apply in_match_dishes in Hr as [dish [_ ->]]. apply score_dish_reason.
Qed.

Lemma match_endpoint_count_witness :
  [pinakbet; dinengdeng] <> []
  /\ exists rs,
      match_endpoint [pinakbet; dinengdeng] loud_occasion = Returned rs
      /\ Z.of_nat (List.length rs) = Z.min 3 (Z.of_nat (List.length [pinakbet; dinengdeng]))
      /\ (1 <= List.length rs <= 3)%nat
      /\ Forall (fun e => e_reason e <> "") rs.
Proof.
  assert (H : [pinakbet; dinengdeng] <> []) by discriminate.
  split; [exact H|].
  exact (match_endpoint_count [pinakbet; dinengdeng] loud_occasion H).
Defined.

(** X15.  When several dishes carry the requested id, the lookup returns
    the earliest of them in the catalog. *)
Theorem get_dish_earliest dishes dish_id d :
  get_dish dishes dish_id = Returned d ->
  exists before after,
    dishes = (before ++ d :: after)%list
    /\ Dish.id d = dish_id
    /\ Forall (fun x => Dish.id x <> dish_id) before.
Proof.
  induction dishes as [|x dishes IH]; cbn [get_dish]; [discriminate|].
  destruct (Z.eqb_spec (Dish.id x) dish_id) as [Hx | Hx]; intro H.
  - injection H as <-. exists [], dishes. repeat split; [exact Hx | constructor].
  - destruct (IH H) as (before & after & -> & Hid & Hb).
    exists (x :: before), after. repeat split; [exact Hid|].
    constructor; assumption.
Qed.

Lemma get_dish_earliest_witness :
  get_dish [pinakbet; dinengdeng] 2 = Returned dinengdeng
  /\ exists before after,
      [pinakbet; dinengdeng] = (before ++ dinengdeng :: after)%list
      /\ Dish.id dinengdeng = 2
      /\ Forall (fun x => Dish.id x <> 2) before.
Proof.
  assert (H : get_dish [pinakbet; dinengdeng] 2 = Returned dinengdeng) by reflexivity.
  split; [exact H|].
  exact (get_dish_earliest [pinakbet; dinengdeng] 2 dinengdeng H).
Defined.

(** ** What normalisation keeps *)

Section Kept.

Import Text.

Lemma space_not_alnum c : is_space c = true -> is_alnum c = false.
Proof.
  intro H. destruct (is_alnum c) eqn:Ha; [|reflexivity].
  rewrite (alnum_not_space c Ha) in H. discriminate.
Qed.

Lemma chars_lower s : list_ascii_of_string (lower s) = map lower_char (list_ascii_of_string s).
Proof. induction s as [|c s IH]; cbn; [reflexivity | rewrite IH; reflexivity]. Qed.

Lemma kept_sub_non_alnum s :
  forall b, filter is_alnum (list_ascii_of_string (sub_non_alnum b s)) = filter is_alnum (list_ascii_of_string s).
Proof.
  induction s as [|c s IH]; intro b; [reflexivity|].
  cbn [sub_non_alnum list_ascii_of_string filter]. destruct (is_alnum c) eqn:Hc.
  - cbn [list_ascii_of_string filter]. rewrite Hc, IH. reflexivity.
  - destruct b; [apply IH|]. cbn [list_ascii_of_string filter].
    change (is_alnum " ") with false. cbv iota. apply IH.
Qed.

Lemma kept_lstrip s : filter is_alnum (list_ascii_of_string (lstrip s)) = filter is_alnum (list_ascii_of_string s).
Proof.
  induction s as [|c s IH]; [reflexivity|].
  cbn [lstrip]. destruct (is_space c) eqn:Hc; [|reflexivity].
  cbn [list_ascii_of_string filter]. rewrite (space_not_alnum c Hc). exact IH.
Qed.

Lemma kept_rstrip s : filter is_alnum (list_ascii_of_string (rstrip s)) = filter is_alnum (list_ascii_of_string s).
Proof.
  induction s as [|c s IH]; [reflexivity|].
  rewrite rstrip_cons. cbn [list_ascii_of_string filter]. rewrite <- IH.
  destruct (rstrip s) as [|a r]; [|reflexivity].
  destruct (is_space c) eqn:Hc; [|reflexivity].
  rewrite (space_not_alnum c Hc). reflexivity.
Qed.

Lemma kept_normalize_token s :
  filter is_alnum (list_ascii_of_string (normalize_token s))
  = filter is_alnum (map lower_char (list_ascii_of_string s)).
Proof.
  unfold normalize_token, strip.
  rewrite kept_rstrip, kept_lstrip, kept_sub_non_alnum, chars_lower. reflexivity.
Qed.

Lemma filter_nil_Forall {A} (p : A -> bool) l :
  filter p l = [] <-> Forall (fun x => p x = false) l.
Proof.
  induction l as [|x l IH]; cbn [filter]; [split; [constructor | reflexivity]|].
  destruct (p x) eqn:Hx.
  - split; [discriminate|]. intro H. apply Forall_inv in H. congruence.
  - rewrite IH. split; [constructor; assumption | apply Forall_inv_tail].
Qed.

End Kept.

(** X16.  Normalisation keeps exactly the letters a-z and digits 0-9 of
    the lower-cased input, in their order; it yields the empty token
    exactly for the strings that hold no such character. *)
Theorem normalize_token_keeps_alnum s :
  filter Text.is_alnum (list_ascii_of_string (normalize_token s))
  = filter Text.is_alnum (map Text.lower_char (list_ascii_of_string s))
  /\ (normalize_token s = ""
      <-> Forall (fun c => Text.is_alnum (Text.lower_char c) = false)
                 (list_ascii_of_string s)).
Proof.
  split; [apply kept_normalize_token|].
  assert (E : Forall (fun c => Text.is_alnum (Text.lower_char c) = false)
                     (list_ascii_of_string s)
              <-> filter Text.is_alnum (list_ascii_of_string (normalize_token s)) = []).
  { rewrite kept_normalize_token, filter_nil_Forall, Forall_map. reflexivity. }
  rewrite E. clear E.
  split; [intros ->; reflexivity|].
  intro H. destruct (normal_normalize_token s) as [Ht _].
  destruct (normalize_token s) as [|c t]; [reflexivity|]. exfalso.
  cbn in H, Ht. destruct (Text.is_alnum c); [discriminate|].
  rewrite andb_false_r in Ht. discriminate.
Qed.

(** ** The rules do not interfere *)

Section Independence.

Variable prefs : PreferenceIn.t.
Variable dish : Dish.t.

Ltac split_rule :=
  repeat match goal with
         | |- context [if ?b then _ else _] => destruct b
         end;
  unfold award; cbn [t_score t_reasons app];
  rewrite ?app_nil_r; f_equal; lia.

Lemma taste_rule_adds a :
  taste_rule prefs dish a
  = Tally (t_score a + t_score (taste_rule prefs dish (Tally 0 [])))
          (t_reasons a ++ t_reasons (taste_rule prefs dish (Tally 0 [])))%list.
Proof. destruct a as [sc rs]. unfold taste_rule. split_rule. Qed.

Lemma ingredient_rule_adds a :
  ingredient_rule prefs dish a
  = Tally (t_score a + t_score (ingredient_rule prefs dish (Tally 0 [])))
          (t_reasons a ++ t_reasons (ingredient_rule prefs dish (Tally 0 [])))%list.
Proof.
  destruct a as [sc rs]. unfold ingredient_rule.
  destruct (ingredient_matches prefs dish); split_rule.
Qed.

Lemma cooking_rule_adds a :
  cooking_rule prefs dish a
  = Tally (t_score a + t_score (cooking_rule prefs dish (Tally 0 [])))
          (t_reasons a ++ t_reasons (cooking_rule prefs dish (Tally 0 [])))%list.
Proof. destruct a as [sc rs]. unfold cooking_rule. split_rule. Qed.

Lemma occasion_rule_adds a :
  occasion_rule prefs dish a
  = Tally (t_score a + t_score (occasion_rule prefs dish (Tally 0 [])))
          (t_reasons a ++ t_reasons (occasion_rule prefs dish (Tally 0 [])))%list.
Proof. destruct a as [sc rs]. unfold occasion_rule. split_rule. Qed.

Lemma restriction_rule_adds a :
  restriction_rule prefs dish a
  = Tally (t_score a - 5 * Z.of_nat (List.length (restriction_hits prefs dish)))
          (t_reasons a ++ map restricted_fragment (restriction_hits prefs dish))%list.
Proof.
  unfold restriction_rule, restriction_hits.
  apply (restriction_fold (dish_ingredients dish) (dish_tags dish)).
Qed.

End Independence.

(** X17.  The five rules do not interfere: the score of a dish is the sum
    of what each rule awards on its own, and its fragments are those of
    the taste, ingredient, restriction, cooking-method and occasion rules,
    in this order. *)
Theorem run_rules_decomposes prefs dish :
  t_score (run_rules prefs dish)
  = t_score (taste_rule prefs dish (Tally 0 []))
    + t_score (ingredient_rule prefs dish (Tally 0 []))
    - 5 * Z.of_nat (List.length (restriction_hits prefs dish))
    + t_score (cooking_rule prefs dish (Tally 0 []))
    + t_score (occasion_rule prefs dish (Tally 0 []))
  /\ t_reasons (run_rules prefs dish)
     = (t_reasons (taste_rule prefs dish (Tally 0 []))
        ++ t_reasons (ingredient_rule prefs dish (Tally 0 []))
        ++ map restricted_fragment (restriction_hits prefs dish)
        ++ t_reasons (cooking_rule prefs dish (Tally 0 []))
        ++ t_reasons (occasion_rule prefs dish (Tally 0 [])))%list.
Proof.
  unfold run_rules.
  rewrite occasion_rule_adds, cooking_rule_adds, restriction_rule_adds,
    ingredient_rule_adds.
  cbn [t_score t_reasons]. split; [lia|].
  rewrite <- !app_assoc. reflexivity.
Qed.
